(** * The finetuning tutorial notebook (examples/06-Finetuning/finetuning.ipynb)

    A shallow embedding of the code cells of the notebook that do their own
    bookkeeping: cell 7 (selecting a basin below the median NSE), cell 11
    (appending [base_run_dir] to [finetune.yml] and writing
    [finetune_basin.txt]) and cell 21 (reading the NSE of the selected basin
    from two result mappings).

    Modelling conventions.
    - A Python exception is a value of [exn]; a computation that may raise
      returns a [result], threaded with stdpp's monadic notation.
    - The pickled result mappings are Python dicts.  The outer one is
      iterated ([.values()], [.items()]), and the order of that iteration
      fixes the positions in the list handed to [np.random.choice], so it is
      an association list in insertion order.  The inner ones are only
      indexed and tested for membership, so they are [gmap]s.
    - A Python float is an IEEE 754 binary64 value, with the arithmetic
      and the comparisons of that format.  A decimal literal stands for the
      binary64 value nearest to it.
    - The files of the working directory are a [gmap] from file name to
      content.
    - A path is its list of components; the names joined to it are the
      relative ones the notebook uses. *)

From Stdlib Require Import ZArith SpecFloat.
From stdpp Require Import base strings gmap list.

(** ** Python: exceptions, dict indexing, paths, files *)

Module Py.

Inductive exn : Type :=
| KeyError (key : string)
| ValueError (msg : string).

Inductive result (A : Type) : Type :=
| Ok (a : A)
| Raise (e : exn).
Arguments Ok {A} a.
Arguments Raise {A} e.

Global Instance result_ret : MRet result := fun _ a => Ok a.
Global Instance result_bind : MBind result := fun _ _ f m =>
  match m with
  | Ok a => f a
  | Raise e => Raise e
  end.

(** [d[k]] on a dict that is only ever indexed. *)
Definition getitem {V} (d : gmap string V) (k : string) : result V :=
  match d !! k with
  | Some v => Ok v
  | None => Raise (KeyError k)
  end.

(** [k in d.keys()] *)
Definition contains {V} (d : gmap string V) (k : string) : bool :=
  match d !! k with
  | Some _ => true
  | None => false
  end.

(** A dict whose iteration order is observed: its items, oldest first. *)
Definition odict (V : Type) : Type := list (string * V).

Definition keys {V} (d : odict V) : list string := d.*1.
Definition values {V} (d : odict V) : list V := d.*2.
Definition items {V} (d : odict V) : list (string * V) := d.

(** The keys of a dict are pairwise distinct. *)
Definition odict_wf {V} (d : odict V) : Prop := NoDup (keys d).

Fixpoint assoc {V} (d : odict V) (k : string) : option V :=
  match d with
  | [] => None
  | (k', v) :: d' => if String.eqb k' k then Some v else assoc d' k
  end.

(** [d[k]] on an ordered dict. *)
Definition ogetitem {V} (d : odict V) (k : string) : result V :=
  match assoc d k with
  | Some v => Ok v
  | None => Raise (KeyError k)
  end.

(** A [pathlib.PurePosixPath]: whether it starts at the root, and its
    components. *)
Record Path : Type := { anchored : bool; parts : list string }.

Fixpoint join (sep : string) (l : list string) : string :=
  match l with
  | [] => EmptyString
  | [x] => x
  | x :: l' => x +:+ sep +:+ join sep l'
  end.

(** [str(p)] *)
Definition str (p : Path) : string :=
  if anchored p then "/" +:+ join "/" (parts p)
  else match parts p with
       | [] => "."
       | _ => join "/" (parts p)
       end.

(** [p.absolute()] in a process whose working directory is [cwd]. *)
Definition absolute (cwd : Path) (p : Path) : Path :=
  if anchored p then p
  else {| anchored := true; parts := parts cwd ++ parts p |}.

(** The regular files of the working directory, by name. *)
Abbreviation files := (gmap string string).

(** [with open(name, "a") as fp: fp.write(text)] *)
Definition append_file (name text : string) (fs : files) : files :=
  <[name := default EmptyString (fs !! name) +:+ text]> fs.

(** [with open(name, "w") as fp: fp.write(text)] *)
Definition write_file (name text : string) (fs : files) : files :=
  <[name := text]> fs.

End Py.

(** ** NumPy: floats, [np.median], [np.random.choice] *)

Module Np.
Import Py.

(** A binary64 value: a zero, an infinity, [nan], or a sign, a mantissa
    and an exponent. *)
Abbreviation float := spec_float.
Abbreviation NaN := S754_nan.

Definition prec : Z := 53.
Definition emax : Z := 1024.

Definition add (a b : float) : float := SFadd prec emax a b.
Definition div (a b : float) : float := SFdiv prec emax a b.

(** The binary64 value of an integer. *)
Definition of_Z (n : Z) : float := binary_normalize prec emax n 0 false.

(** The binary64 value nearest to the fraction [n / d], for [n] and [d]
    that binary64 holds exactly: what the decimal literal denotes
    ([dec 6 10] for [0.6]). *)
Definition dec (n d : Z) : float := div (of_Z n) (of_Z d).

(** [a < b] and [a <= b] on floats: false as soon as one side is [nan]. *)
Definition ltb (a b : float) : bool := SFltb a b.
Definition leb (a b : float) : bool := SFleb a b.

Definition is_nan (a : float) : bool :=
  match a with
  | S754_nan => true
  | _ => false
  end.

(** [np.median] only uses the values in ascending order; an insertion sort
    produces it. *)
Fixpoint insort (x : float) (l : list float) : list float :=
  match l with
  | [] => [x]
  | y :: l' => if leb x y then x :: l else y :: insort x l'
  end.

Fixpoint sort (l : list float) : list float :=
  match l with
  | [] => []
  | x :: l' => insort x (sort l')
  end.

(** [np.median(l)] of a flat list: [nan] for an empty list and for a list
    holding a [nan]; otherwise the mean of the middle value of the sorted
    list, or of its two middle values: their binary64 sum divided by two.
    The mean of the one value is that value.  Which of two zeros of
    different sign comes out is not modelled. *)
Definition median (l : list float) : float :=
  if existsb is_nan l then NaN
  else
    let s := sort l in
    let n := length s in
    match n with
    | O => NaN
    | _ =>
        if Nat.odd n then nth (n / 2) s NaN
        else div (add (nth (n / 2 - 1) s NaN) (nth (n / 2) s NaN)) (of_Z 2)
    end.

Definition empty_choice : exn :=
  ValueError "'a' cannot be empty unless no samples are taken".

Definition nul : Ascii.ascii := Ascii.ascii_of_nat 0.

(** What reading a string back from a fixed-width unicode array yields: the
    string without the NUL characters at its end. *)
Fixpoint strip_nul (s : string) : string :=
  match s with
  | EmptyString => EmptyString
  | String c s' =>
      match strip_nul s' with
      | EmptyString =>
          if Ascii.eqb c nul then EmptyString else String c EmptyString
      | t => String c t
      end
  end.

(** [np.random.choice(a)] on a list of strings: the generator is asked for
    an index below [len(a)]; [draw] is what the generator yields, reduced to
    that range.  The list is stored in a unicode array and the element is
    read back from it. *)
Definition random_choice (draw : nat) (a : list string) : result string :=
  match a with
  | [] => Raise empty_choice
  | x :: _ => Ok (strip_nul (nth (draw mod length a) a x))
  end.

End Np.

(** ** The notebook *)

Module Notebook.
Import Py Np.

(** What [pickle.load] yields for a results file: basin, then temporal
    resolution, then metric. *)
Abbreviation record := (gmap string (gmap string float)).
Abbreviation results := (odict (gmap string (gmap string float))).

(** *** Cell 7: a random basin below the median

    The notebook writes the metric as the literal ["NSE"]; it is a
    parameter here, and [cell7] and [cell21] instantiate it. *)
Section Metric.
Variable metric : string.

(** [[v["1D"][metric] for v in validation_results.values()
      if metric in v["1D"].keys()]] *)
Fixpoint metric_values (vs : list record) : result (list float) :=
  match vs with
  | [] => Ok []
  | v :: vs' =>
      d ← getitem v "1D";
      if contains d metric then
        d' ← getitem v "1D";
        x ← getitem d' metric;
        xs ← metric_values vs';
        Ok (x :: xs)
      else metric_values vs'
  end.

(** The [for k, v in validation_results.items()] loop; [basins] is the
    list built so far. *)
Fixpoint below_median (its : list (string * record)) (median_nse : float)
    (basins : list string) : result (list string) :=
  match its with
  | [] => Ok basins
  | (k, v) :: its' =>
      d ← getitem v "1D";
      if contains d metric then
        d' ← getitem v "1D";
        x ← getitem d' metric;
        if ltb x median_nse then below_median its' median_nse (basins ++ [k])
        else below_median its' median_nse basins
      else below_median its' median_nse basins
  end.

Definition median_metric (validation_results : results) : result float :=
  xs ← metric_values (values validation_results);
  Ok (median xs).

Definition qualifying (validation_results : results) : result (list string) :=
  median_nse ← median_metric validation_results;
  below_median (items validation_results) median_nse [].

Definition select_basin (draw : nat) (validation_results : results)
    : result string :=
  basins ← qualifying validation_results;
  random_choice draw basins.

(** [validation_results[basin]['1D'][metric]], as the last [print] of the
    cell and cell 21 evaluate it. *)
Definition basin_metric (res : results) (basin : string) : result float :=
  r ← ogetitem res basin;
  d ← getitem r "1D";
  getitem d metric.

(** The whole cell: the median, the basin and the value it prints. *)
Definition select_and_report (draw : nat) (validation_results : results)
    : result (float * string * float) :=
  median_nse ← median_metric validation_results;
  basins ← below_median (items validation_results) median_nse [];
  basin ← random_choice draw basins;
  x ← basin_metric validation_results basin;
  Ok (median_nse, basin, x).

(** *** Cell 21: the metric of one basin in two result mappings *)
Definition compare (base_model_results finetuned_results : results)
    (basin : string) : result (float * float) :=
  base_model_nse ← basin_metric base_model_results basin;
  finetune_nse ← basin_metric finetuned_results basin;
  Ok (base_model_nse, finetune_nse).

End Metric.

Definition cell7 := select_and_report "NSE".
Definition cell21 := compare "NSE".

(** *** Cell 11: the finetuning config and the basin file *)

Definition base_run_entry (cwd run_dir : Path) : string :=
  "base_run_dir: " +:+ str (absolute cwd run_dir).

Definition add_base_run_dir (cwd run_dir : Path) (fs : files) : files :=
  append_file "finetune.yml" (base_run_entry cwd run_dir) fs.

Definition write_basin_file (basin : string) (fs : files) : files :=
  write_file "finetune_basin.txt" basin fs.

Definition cell11 (cwd run_dir : Path) (basin : string) (fs : files) : files :=
  write_basin_file basin (add_base_run_dir cwd run_dir fs).

End Notebook.

(** ** Reading the text files back *)

Module Doc.

Definition newline : Ascii.ascii := Ascii.ascii_of_nat 10.
Definition colon : Ascii.ascii := Ascii.ascii_of_nat 58.
Definition space : Ascii.ascii := Ascii.ascii_of_nat 32.

(** [s.split("\n")] *)
Fixpoint split_lines (s : string) : list string :=
  match s with
  | EmptyString => [EmptyString]
  | String c s' =>
      if Ascii.eqb c newline then EmptyString :: split_lines s'
      else match split_lines s' with
           | l :: ls => String c l :: ls
           | [] => [String c EmptyString]
           end
  end.

Definition drop_empty_tail (ls : list string) : list string :=
  match last ls with
  | Some EmptyString => removelast ls
  | _ => ls
  end.

(** Modelled from the spec: the reader of the configuration document and of
    the basin list is the external library; the spec gives their formats as
    plain text read by lines (one basin identifier per line, a key-value
    document).  The lines of a text are the pieces between line breaks; a
    line break at the very end starts no further line. *)
Definition lines (s : string) : list string :=
  drop_empty_tail (split_lines s).

(** Modelled from the spec: an entry of the key-value document is a line
    [key: value], split at the first colon that a space follows. *)
Fixpoint entry_of_line (l : string) : option (string * string) :=
  match l with
  | EmptyString => None
  | String c l' =>
      match l' with
      | String c' v =>
          if Ascii.eqb c colon && Ascii.eqb c' space then Some (EmptyString, v)
          else prod_map (String c) id <$> entry_of_line l'
      | EmptyString => None
      end
  end.

Definition entries (s : string) : list (string * string) :=
  omap entry_of_line (lines s).

(** No line of the text is left open: it is empty or ends in a line break. *)
Fixpoint terminated (s : string) : bool :=
  match s with
  | EmptyString => true
  | String c EmptyString => Ascii.eqb c newline
  | String _ s' => terminated s'
  end.

Fixpoint single_line (s : string) : bool :=
  match s with
  | EmptyString => true
  | String c s' => negb (Ascii.eqb c newline) && single_line s'
  end.

End Doc.

(** ** What the claims speak of *)

Module Spec.
Import Py Np Notebook.

Section Metric.
Variable metric : string.

(** The record of a basin carries the temporal-resolution key. *)
Definition has_1D (v : record) : Prop := is_Some (v !! "1D").

(** The value a basin has for the metric, when it has one. *)
Definition metric_of (v : record) : option float :=
  d ← v !! "1D"; d !! metric.

(** The values of the basins having the metric present. *)
Definition having_metric (vr : results) : list float :=
  omap metric_of (values vr).

Definition qualifies (m : float) (kv : string * record) : bool :=
  match metric_of kv.2 with
  | Some x => ltb x m
  | None => false
  end.

(** The basins whose value is strictly below [m]: the qualifying set. *)
Definition below (m : float) (vr : results) : list string :=
  (List.filter (qualifies m) vr).*1.

(** The first key missing on the way [res[basin]["1D"][metric]]. *)
Definition absent_key (res : results) (basin : string) : option string :=
  match assoc res basin with
  | None => Some basin
  | Some r =>
      match r !! "1D" with
      | None => Some "1D"
      | Some d =>
          match d !! metric with
          | None => Some metric
          | Some _ => None
          end
      end
  end.

End Metric.

(** A failure that is described: neither the error of the sampling routine
    nor a lookup error is passed on. *)
Definition descriptive_failure {A} (r : result A) : Prop :=
  ∃ e, r = Raise e ∧ e ≠ empty_choice ∧ ∀ k, e ≠ KeyError k.

(** The two mappings handed to the comparison. *)
Inductive operand : Type := Base | Finetuned.

(** [which] reads off an error the mapping in which a key was absent. *)
Definition names_mapping (which : exn → operand) : Prop :=
  ∀ metric (a b : results) basin e,
    compare metric a b basin = Raise e →
    is_Some (absent_key metric
               (match which e with Base => a | Finetuned => b end) basin).

(** An identifier that reading back from a unicode array leaves as it is:
    it does not end in a NUL character. *)
Definition plain (s : string) : Prop := strip_nul s = s.

(** A record holding one metric value under ["1D"]. *)
Definition daily (metric : string) (x : float) : record :=
  {[ "1D" := {[ metric := x ]} ]}.

(** The mapping of the end-to-end scenario. *)
Definition scenario : results :=
  [("A", daily "NSE" (dec 5 10)); ("B", daily "NSE" (dec 6 10));
   ("C", daily "NSE" (dec 7 10)); ("D", daily "NSE" (dec 8 10))].

(** A mapping in which a single basin has the metric. *)
Definition lone : results := [("04122200", daily "NSE" (dec 629 1000))].

(** A mapping with a record that lacks the temporal-resolution key. *)
Definition ragged : results := [("A", daily "NSE" (dec 5 10)); ("B", ∅)].




Definition results_a : results := [("B1", daily "NSE" (dec 602 1000))].
Definition results_b : results := [("B1", daily "NSE" (dec 717 1000))].

Definition nl : string := String Doc.newline EmptyString.

Definition home : Path := {| anchored := true; parts := ["home"; "user"] |}.
Definition run_dir : Path :=
  {| anchored := false; parts := ["runs"; "cudalstm_maurer_531_basins_1201_213010"] |}.

(** A config whose last line is left open, and one whose lines are all
    complete. *)
Definition open_config : string := "epochs: 10".
Definition config : string := "epochs: 10" +:+ nl.

End Spec.

(** ** Paths of the result files *)

Module Paths.
Import Py.

Definition slash : Ascii.ascii := Ascii.ascii_of_nat 47.

(** [s.split("/")] *)
Fixpoint split_slash (s : string) : list string :=
  match s with
  | EmptyString => [EmptyString]
  | String c s' =>
      if Ascii.eqb c slash then EmptyString :: split_slash s'
      else match split_slash s' with
           | x :: xs => String c x :: xs
           | [] => [String c EmptyString]
           end
  end.

(** A piece that [pathlib] keeps as a component: not empty, not a dot. *)
Definition kept (x : string) : bool :=
  negb (String.eqb x EmptyString) && negb (String.eqb x ".").

(** The components of a name that does not start at the root. *)
Definition rel_parts (s : string) : list string :=
  List.filter kept (split_slash s).

Definition is_relative (s : string) : bool :=
  match s with
  | EmptyString => true
  | String c _ => negb (Ascii.eqb c slash)
  end.

(** [Path(s)] and [p / s] for a name [s] that does not start with a slash,
    as every name the notebook hands to them. *)
Definition path_of (s : string) : Path :=
  {| anchored := false; parts := rel_parts s |}.

Definition truediv (p : Path) (s : string) : Path :=
  {| anchored := anchored p; parts := parts p ++ rel_parts s |}.

(** Cell 7:
    [run_dir / "validation" / "model_epoch003" / "validation_results.p"] *)
Definition validation_results_file (run_dir : Path) : Path :=
  truediv (truediv (truediv run_dir "validation") "model_epoch003")
    "validation_results.p".

(** Cell 21: [run_dir / "test/model_epoch003/test_results.p"] *)
Definition test_results_file (run_dir : Path) : Path :=
  truediv run_dir "test/model_epoch003/test_results.p".

End Paths.

(** ** The cells in sequence *)

Module Flow.
Import Py Np Notebook.

(** Cells 7 and 11 run one after the other: [basin] is a global that cell 7
    assigns and cell 11 writes out.  When cell 7 raises, the run stops
    before cell 11. *)
Definition select_then_write (draw : nat) (validation_results : results)
    (cwd run_dir : Path) (fs : files) : result (string * files) :=
  r ← cell7 draw validation_results;
  Ok (r.1.2, cell11 cwd run_dir r.1.2 fs).

(** Cell 11 run [n] times with the same basin. *)
Definition rerun_cell11 (n : nat) (cwd run_dir : Path) (basin : string)
    (fs : files) : files :=
  Nat.iter n (cell11 cwd run_dir basin) fs.

(** [n] copies of a text, one after the other. *)
Fixpoint copies (n : nat) (e : string) : string :=
  match n with
  | O => EmptyString
  | S n' => e +:+ copies n' e
  end.

End Flow.

(** ** Lemmas on the embedding *)

Import Py Np Notebook Spec.

Section SelectorFacts.
Variable metric : string.

Lemma metric_values_ok (vs : list record) :
  Forall has_1D vs → metric_values metric vs = Ok (omap (metric_of metric) vs).
Proof.
  induction 1 as [|v vs [d Hd] _ IH]; [done|].
  cbn. unfold getitem, contains, metric_of. rewrite Hd. cbn.
  destruct (d !! metric) as [x|]; cbn; [|exact IH].
  by rewrite IH.
Qed.

Lemma metric_values_err (vs : list record) :
  Exists (λ v, v !! "1D" = None) vs →
  metric_values metric vs = Raise (KeyError "1D").
Proof.
  induction vs as [|v vs IH]; intros HE; [by apply Exists_nil in HE|].
  cbn. unfold getitem, contains.
  destruct (v !! "1D") as [d|] eqn:Hd; cbn; [|done].
  apply Exists_cons in HE as [HE|HE]; [congruence|].
  destruct (d !! metric); cbn; by rewrite IH.
Qed.

Lemma below_cons m k (v : record) (its : list (string * record)) :
  below metric m ((k, v) :: its)
  = if qualifies metric m (k, v) then k :: below metric m its
    else below metric m its.
Proof. unfold below. cbn. by destruct (qualifies metric m (k, v)). Qed.

Lemma below_median_ok (its : list (string * record)) m acc :
  Forall has_1D its.*2 →
  below_median metric its m acc = Ok (acc ++ below metric m its).
Proof.
  revert acc. induction its as [|[k v] its IH]; intros acc HF.
  { cbn. by rewrite app_nil_r. }
  apply Forall_cons in HF as [[d Hd] HF]. cbn in Hd.
  rewrite below_cons. cbn. unfold getitem, contains, qualifies, metric_of.
  cbn. rewrite Hd. cbn.
  destruct (d !! metric) as [x|]; cbn; [|by apply IH].
  destruct (ltb x m); cbn; rewrite IH by done; [|done].
  by rewrite <- app_assoc.
Qed.

Lemma below_median_err (its : list (string * record)) m acc :
  Exists (λ v, v !! "1D" = None) its.*2 →
  below_median metric its m acc = Raise (KeyError "1D").
Proof.
  revert acc. induction its as [|[k v] its IH]; intros acc HE.
  { by apply Exists_nil in HE. }
  cbn. unfold getitem, contains.
  destruct (v !! "1D") as [d|] eqn:Hd; cbn; [|done].
  apply Exists_cons in HE as [HE|HE]; [cbn in HE; congruence|].
  destruct (d !! metric); cbn; [destruct (ltb _ _)|]; by apply IH.
Qed.

Lemma has_1D_cases (vs : list record) :
  Forall has_1D vs ∨ Exists (λ v, v !! "1D" = None) vs.
Proof.
  induction vs as [|v vs [IH|IH]]; [by left| |].
  - destruct (v !! "1D") as [d|] eqn:Hd.
    + left. constructor; [by exists d|done].
    + right. by left.
  - right. by right.
Qed.

Lemma select_basin_ok draw (vr : results) :
  Forall has_1D (values vr) →
  select_basin metric draw vr
  = random_choice draw (below metric (median (having_metric metric vr)) vr).
Proof.
  intros HF. unfold select_basin, qualifying, median_metric.
  rewrite metric_values_ok by done. cbn.
  by rewrite below_median_ok.
Qed.

Lemma select_basin_err draw (vr : results) :
  Exists (λ v, v !! "1D" = None) (values vr) →
  select_basin metric draw vr = Raise (KeyError "1D").
Proof.
  intros HE. unfold select_basin, qualifying, median_metric.
  by rewrite metric_values_err.
Qed.

End SelectorFacts.

Section ChoiceFacts.

(** The basin returned is an element of the list, read back from the
    array. *)
Lemma random_choice_elem draw (l : list string) x :
  random_choice draw l = Ok x → ∃ y, y ∈ l ∧ x = strip_nul y.
Proof.
  destruct l as [|y l]; [done|]. unfold random_choice.
  assert (draw mod length (y :: l) < length (y :: l)) as Hlt
    by (by apply Nat.mod_upper_bound).
  revert Hlt. generalize (draw mod length (y :: l)) as i. intros i Hlt Hx.
  injection Hx as Hx. exists (nth i (y :: l) y). split; [|done].
  apply list_elem_of_In. exact (nth_In (y :: l) y Hlt).
Qed.

Lemma random_choice_plain draw (l : list string) x :
  Forall plain l → random_choice draw l = Ok x → x ∈ l.
Proof.
  intros Hp (y & Hy & ->)%random_choice_elem.
  by rewrite (proj1 (Forall_forall _ _) Hp y Hy).
Qed.

Lemma random_choice_ok draw (l : list string) :
  l ≠ [] → ∃ x, random_choice draw l = Ok x.
Proof. destruct l; [done|]. intros _. by eexists. Qed.

Lemma random_choice_empty draw : random_choice draw [] = Raise empty_choice.
Proof. done. Qed.

End ChoiceFacts.

Section DictFacts.
Context {V : Type}.

Lemma assoc_wf (d : odict V) k v :
  odict_wf d → (k, v) ∈ d → assoc d k = Some v.
Proof.
  unfold odict_wf, keys. induction d as [|[k' v'] d IH]; intros Hwf Hin.
  { by apply elem_of_nil in Hin. }
  cbn in Hwf. apply NoDup_cons in Hwf as [Hk' Hwf]. cbn.
  apply elem_of_cons in Hin as [[= <- <-]|Hin].
  - by rewrite String.eqb_refl.
  - destruct (String.eqb_spec k' k) as [->|_]; [|by apply IH].
    destruct Hk'. apply list_elem_of_fmap. by exists (k, v).
Qed.


End DictFacts.

Section FloatFacts.

Lemma SFcompare_refl (x : float) :
  SFcompare x x = Some Eq ∨ SFcompare x x = None.
Proof.
  destruct x as [s|s| |s m e]; cbn.
  - by left.
  - left. by destruct s.
  - by right.
  - left. rewrite Z.compare_refl.
    change (Pos.compare_cont Eq m m) with (m ?= m)%positive.
    rewrite Pos.compare_refl. by destruct s.
Qed.

Lemma SFcompare_antisym (x y : float) c :
  SFcompare x y = Some c → SFcompare y x = Some (CompOpp c).
Proof.
  destruct x as [s1|s1| |s1 m1 e1], y as [s2|s2| |s2 m2 e2]; cbn;
    try done; try (intros [= <-]; by destruct s1, s2);
    try (intros [= <-]; by destruct s1); try (intros [= <-]; by destruct s2).
  intros [= <-]. f_equal.
  rewrite (Z.compare_antisym e1 e2).
  change (Pos.compare_cont Eq m2 m1) with (m2 ?= m1)%positive.
  change (Pos.compare_cont Eq m1 m2) with (m1 ?= m2)%positive.
  rewrite (Pos.compare_antisym m1 m2).
  destruct s1, s2; try done;
    destruct (e1 ?= e2)%Z; cbn; try done;
    by destruct (m1 ?= m2)%positive.
Qed.

(** A value strictly below another is not above or equal to it. *)
Lemma ltb_leb x m : ltb x m = true → leb m x = false.
Proof.
  unfold ltb, leb, SFltb, SFleb.
  destruct (SFcompare x m) as [[| |]|] eqn:Hc; try done. intros _.
  by rewrite (SFcompare_antisym _ _ _ Hc).
Qed.

Lemma ltb_irrefl x : ltb x x = false.
Proof.
  unfold ltb, SFltb. by destruct (SFcompare_refl x) as [-> | ->].
Qed.

Lemma ltb_nan_r x : ltb x NaN = false.
Proof. by destruct x. Qed.

Lemma is_nan_eq x : is_nan x = true → x = NaN.
Proof. by destruct x. Qed.

Lemma median_singleton x : median [x] = x.
Proof.
  unfold median. cbn [existsb]. rewrite orb_false_r.
  destruct (is_nan x) eqn:Hx; [by rewrite (is_nan_eq x Hx)|done].
Qed.

Lemma median_nan (xs : list float) : NaN ∈ xs → median xs = NaN.
Proof.
  intros Hin. unfold median.
  assert (existsb is_nan xs = true) as ->; [|done].
  apply existsb_exists. exists NaN. split; [by apply list_elem_of_In|done].
Qed.

End FloatFacts.

Lemma below_elem metric m (vr : results) b :
  b ∈ below metric m vr →
  ∃ v x, (b, v) ∈ vr ∧ metric_of metric v = Some x ∧ ltb x m = true.
Proof.
  unfold below. intros ([k v] & -> & Hin)%list_elem_of_fmap.
  apply list_elem_of_In, filter_In in Hin as [Hin Hq].
  apply list_elem_of_In in Hin. unfold qualifies in Hq. cbn in *.
  destruct (metric_of metric v) as [x|] eqn:Hx; [|done].
  by exists v, x.
Qed.

Lemma basin_metric_of metric (vr : results) b v x :
  assoc vr b = Some v → metric_of metric v = Some x →
  basin_metric metric vr b = Ok x.
Proof.
  unfold basin_metric, ogetitem, metric_of, getitem. intros -> Hx. cbn.
  destruct (v !! "1D") as [d|]; [|done]. cbn in *. by rewrite Hx.
Qed.

Lemma metric_of_having metric (vr : results) b v x :
  (b, v) ∈ vr → metric_of metric v = Some x → x ∈ having_metric metric vr.
Proof.
  intros Hin Hx. unfold having_metric, values.
  apply list_elem_of_omap. exists v. split; [|done].
  apply list_elem_of_fmap. by exists (b, v).
Qed.

Lemma below_lone metric (vr : results) :
  length (having_metric metric vr) = 1 →
  below metric (median (having_metric metric vr)) vr = [].
Proof.
  intros Hlen.
  destruct (having_metric metric vr) as [|y [|? ?]] eqn:Hy; try done.
  rewrite median_singleton.
  destruct (below metric y vr) as [|b bs] eqn:Hb; [done|].
  assert (b ∈ below metric y vr) as Hin by (rewrite Hb; left).
  apply below_elem in Hin as (v & x & Hin & Hx & Hlt).
  pose proof (metric_of_having _ _ _ _ _ Hin Hx) as Hm.
  rewrite Hy in Hm. apply list_elem_of_singleton in Hm as ->.
  by rewrite ltb_irrefl in Hlt.
Qed.

Lemma qualifying_ok metric (vr : results) basins :
  qualifying metric vr = Ok basins →
  Forall has_1D (values vr)
  ∧ basins = below metric (median (having_metric metric vr)) vr.
Proof.
  intros Hq. destruct (has_1D_cases (values vr)) as [HF|HE].
  - split; [done|]. revert Hq. unfold qualifying, median_metric.
    rewrite metric_values_ok by done. cbn.
    rewrite below_median_ok by done. by intros [= <-].
  - revert Hq. unfold qualifying, median_metric.
    by rewrite metric_values_err.
Qed.

Lemma below_keys metric m (vr : results) b :
  b ∈ below metric m vr → b ∈ keys vr.
Proof.
  intros (v & x & Hin & _)%below_elem. apply list_elem_of_fmap.
  by exists (b, v).
Qed.

Lemma below_plain metric m (vr : results) :
  Forall plain (keys vr) → Forall plain (below metric m vr).
Proof.
  intros Hp. apply Forall_forall. intros b Hb%below_keys.
  by apply (proj1 (Forall_forall _ _) Hp).
Qed.

(** ** The claims *)




(** C2, as stated, fails: with a single basin having the metric the
    selector passes on the error of [np.random.choice], not a described
    failure of its own. *)
Lemma no_qualifying_basin_counterexample :
  length (having_metric "NSE" lone) = 1
  ∧ select_basin "NSE" 0 lone = Raise empty_choice
  ∧ ¬ descriptive_failure (select_basin "NSE" 0 lone).
Proof.
  split_and!; [done|by vm_compute|].
  intros (e & He & Hne & _). apply Hne.
  assert (select_basin "NSE" 0 lone = Raise empty_choice) as Hr by (by vm_compute).
  congruence.
Qed.

(** C2, amended. When every record carries ["1D"] and no basin qualifies, in
    particular when exactly one basin has the metric, the selector returns
    no basin: it fails with the [ValueError] that [np.random.choice] raises
    for an empty list, whatever the random draw. *)
Theorem no_qualifying_basin_raises metric draw (vr : results) :
  Forall has_1D (values vr) →
  below metric (median (having_metric metric vr)) vr = []
  ∨ length (having_metric metric vr) = 1 →
  select_basin metric draw vr = Raise empty_choice.
Proof.
  intros HF Hnone. rewrite select_basin_ok by done.
  destruct Hnone as [->| ->%below_lone]; apply random_choice_empty.
Qed.

Lemma no_qualifying_basin_raises_witness :
  select_basin "NSE" 7 lone = Raise empty_choice.
Proof.
  apply (no_qualifying_basin_raises "NSE" 7 lone).
  - repeat constructor. by eexists.
  - right. reflexivity.
Defined.

(** C9. The selector indexes every record with ["1D"] before it tests for
    the metric, in the median and in the loop alike: when every record has
    the key it raises no lookup error, and when some record lacks it the
    median, the loop and the selector all fail with [KeyError] on ["1D"]. *)
Theorem selector_requires_1D metric draw (vr : results) :
  (Forall has_1D (values vr) →
     ∀ k, select_basin metric draw vr ≠ Raise (KeyError k))
  ∧ (Exists (λ v, v !! "1D" = None) (values vr) →
       median_metric metric vr = Raise (KeyError "1D")
       ∧ (∀ m, below_median metric (items vr) m [] = Raise (KeyError "1D"))
       ∧ select_basin metric draw vr = Raise (KeyError "1D")).
Proof.
  split.
  - intros HF k. rewrite select_basin_ok by done.
    by destruct (below _ _ _).
  - intros HE. split_and!.
    + unfold median_metric. by rewrite metric_values_err.
    + intros m. by apply below_median_err.
    + by apply select_basin_err.
Qed.

Lemma selector_requires_1D_witness :
  (∀ k, select_basin "NSE" 3 scenario ≠ Raise (KeyError k))
  ∧ select_basin "NSE" 3 ragged = Raise (KeyError "1D").
Proof.
  split.
  - apply (proj1 (selector_requires_1D "NSE" 3 scenario)).
    repeat constructor; by eexists.
  - apply (proj2 (selector_requires_1D "NSE" 3 ragged)).
    right. left. reflexivity.
Defined.




Lemma mod_2_even draw : draw mod 2 = if Nat.even draw then 0 else 1.
Proof.
  destruct (Nat.even draw) eqn:He.
  - apply Nat.even_spec in He as [k ->].
    by rewrite Nat.mul_comm, Nat.Div0.mod_mul.
  - assert (Nat.odd draw = true) as [k ->]%Nat.odd_spec
      by (by rewrite <- Nat.negb_even, He).
    by rewrite Nat.add_comm, Nat.mul_comm, Nat.Div0.mod_add.
Qed.

(** C8, as stated, fails: the median that the cell computes for the scenario
    is the binary64 result of (0.6 + 0.7) / 2, which is below 0.65 and not
    equal to it. *)
Lemma scenario_median_counterexample :
  ∃ m, median_metric "NSE" scenario = Ok m
       ∧ m = div (add (dec 6 10) (dec 7 10)) (of_Z 2)
       ∧ m ≠ dec 65 100
       ∧ SFeqb m (dec 65 100) = false
       ∧ ltb m (dec 65 100) = true.
Proof.
  eexists. split; [by vm_compute|]. split_and!; by vm_compute.
Qed.

(** C8, amended. In the scenario A 0.5, B 0.6, C 0.7, D 0.8 the computed
    median is 0.6499999999999999, the binary64 value next below 0.65, and
    the qualifying basins are A and B; the selector returns A on the even
    draws and B on the odd ones, so each of the two is returned for one of
    the two equally likely indices, and C and D are never returned. *)
Theorem scenario_selects_A_or_B :
  median_metric "NSE" scenario
  = Ok (dec 6499999999999999 10000000000000000)
  ∧ qualifying "NSE" scenario = Ok ["A"; "B"]
  ∧ ∀ draw,
      select_basin "NSE" draw scenario = Ok (if Nat.even draw then "A" else "B")
      ∧ select_basin "NSE" draw scenario ≠ Ok "C"
      ∧ select_basin "NSE" draw scenario ≠ Ok "D".
Proof.
  assert (qualifying "NSE" scenario = Ok ["A"; "B"]) as Hq by (by vm_compute).
  split_and!; [by vm_compute|exact Hq|].
  intros draw.
  assert (select_basin "NSE" draw scenario
          = Ok (if Nat.even draw then "A" else "B")) as ->.
  { unfold select_basin. rewrite Hq. clear Hq. unfold random_choice.
    change (length ["A"; "B"]) with 2. cbn [mbind result_bind].
    rewrite mod_2_even. by destruct (Nat.even draw). }
  clear Hq. by destruct (Nat.even draw).
Qed.

Section CompareFacts.
Variable metric : string.

Lemma basin_metric_absent (res : results) basin k :
  absent_key metric res basin = Some k →
  basin_metric metric res basin = Raise (KeyError k).
Proof.
  unfold absent_key, basin_metric, ogetitem, getitem.
  destruct (assoc res basin) as [r|]; cbn; [|by intros [= <-]].
  destruct (r !! "1D") as [d|]; cbn; [|by intros [= <-]].
  destruct (d !! metric); cbn; [done|by intros [= <-]].
Qed.

Lemma basin_metric_present (res : results) basin :
  absent_key metric res basin = None →
  ∃ x, basin_metric metric res basin = Ok x.
Proof.
  unfold absent_key, basin_metric, ogetitem, getitem.
  destruct (assoc res basin) as [r|]; cbn; [|done].
  destruct (r !! "1D") as [d|]; cbn; [|done].
  destruct (d !! metric) as [x|]; cbn; [by exists x|done].
Qed.

End CompareFacts.

(** C6. When the basin, the ["1D"] record and the metric are present in both
    mappings, the comparison yields the two stored values, the base model's
    first; for the two one-basin mappings of the spec it yields 0.602 and
    0.717. *)
Theorem compare_reports_both_values :
  (∀ metric (a b : results) basin ra da x rb db y,
     assoc a basin = Some ra → ra !! "1D" = Some da → da !! metric = Some x →
     assoc b basin = Some rb → rb !! "1D" = Some db → db !! metric = Some y →
     compare metric a b basin = Ok (x, y))
  ∧ cell21 results_a results_b "B1"
    = Ok (dec 602 1000, dec 717 1000).
Proof.
  split; [|by vm_compute].
  intros metric a b basin ra da x rb db y Ha Hra Hda Hb Hrb Hdb.
  unfold compare, basin_metric, ogetitem, getitem.
  rewrite Ha. cbn. rewrite Hra. cbn. rewrite Hda. cbn.
  rewrite Hb. cbn. rewrite Hrb. cbn. by rewrite Hdb.
Qed.

Lemma compare_reports_both_values_witness :
  compare "NSE" results_a results_b "B1"
  = Ok (dec 602 1000, dec 717 1000).
Proof.
  eapply (proj1 compare_reports_both_values "NSE" results_a results_b "B1");
    reflexivity.
Defined.

(** C7, as stated, fails: the error raised for a basin missing from the
    first mapping only and the one raised for a basin missing from the
    second mapping only are the same [KeyError], so no reading of the error
    tells which mapping lacked the key. *)
Lemma compare_error_counterexample :
  compare "NSE" [] results_b "B1" = Raise (KeyError "B1")
  ∧ absent_key "NSE" results_b "B1" = None
  ∧ compare "NSE" results_a [] "B1" = Raise (KeyError "B1")
  ∧ absent_key "NSE" results_a "B1" = None
  ∧ ¬ ∃ which, names_mapping which.
Proof.
  assert (compare "NSE" [] results_b "B1" = Raise (KeyError "B1")) as H1
    by (by vm_compute).
  assert (compare "NSE" results_a [] "B1" = Raise (KeyError "B1")) as H2
    by (by vm_compute).
  assert (absent_key "NSE" results_b "B1" = None) as Hb by (by vm_compute).
  assert (absent_key "NSE" results_a "B1" = None) as Ha by (by vm_compute).
  split_and!; try done.
  intros [which Hw].
  pose proof (Hw _ _ _ _ _ H1) as [k1 Hk1].
  pose proof (Hw _ _ _ _ _ H2) as [k2 Hk2].
  destruct (which (KeyError "B1")); congruence.
Qed.

(** C7, amended. When a key on the way to the metric is absent from either
    mapping, the comparison returns no pair: it fails with a [KeyError]
    that carries the absent key, the one of the first mapping when that
    mapping lacks one and otherwise the one of the second.  The error does
    not name the mapping. *)
Theorem compare_raises_absent_key metric (a b : results) basin :
  is_Some (absent_key metric a basin) ∨ is_Some (absent_key metric b basin) →
  ∃ k, compare metric a b basin = Raise (KeyError k)
       ∧ (absent_key metric a basin = Some k
          ∨ absent_key metric a basin = None
            ∧ absent_key metric b basin = Some k).
Proof.
  intros Habs. unfold compare.
  destruct (absent_key metric a basin) as [k|] eqn:Ha.
  - exists k. rewrite (basin_metric_absent _ _ _ _ Ha). by split; [|left].
  - destruct Habs as [[? [=]]|[k Hb]].
    destruct (basin_metric_present _ _ _ Ha) as [x ->].
    exists k. rewrite (basin_metric_absent _ _ _ _ Hb). by split; [|right].
Qed.

Lemma compare_raises_absent_key_witness :
  ∃ k, compare "NSE" results_a [] "B1" = Raise (KeyError k)
       ∧ (absent_key "NSE" results_a "B1" = Some k
          ∨ absent_key "NSE" results_a "B1" = None
            ∧ absent_key "NSE" [] "B1" = Some k).
Proof.
  apply (compare_raises_absent_key "NSE" results_a [] "B1").
  right. vm_compute. by eexists.
Defined.

Section DocFacts.
Import Doc.

Lemma append_nil (b : string) : EmptyString +:+ b = b.
Proof. reflexivity. Qed.

Lemma append_cons c (a b : string) : String c a +:+ b = String c (a +:+ b).
Proof. reflexivity. Qed.

Lemma append_assoc (a b c : string) : (a +:+ b) +:+ c = a +:+ b +:+ c.
Proof.
  induction a as [|x a IH]; [done|]. by rewrite !append_cons, IH.
Qed.

Lemma split_lines_cons (s : string) : ∃ l ls, split_lines s = l :: ls.
Proof.
  destruct s as [|c s]; cbn; [by eexists _, _|].
  destruct (Ascii.eqb c newline); [by eexists _, _|].
  destruct (split_lines s); by eexists _, _.
Qed.

Lemma split_lines_break (a b : string) :
  split_lines (a +:+ String newline b) = split_lines a ++ split_lines b.
Proof.
  induction a as [|c a IH].
  - rewrite append_nil. cbn. by rewrite Ascii.eqb_refl.
  - rewrite append_cons. cbn.
    destruct (Ascii.eqb c newline); [by rewrite IH|].
    rewrite IH. by destruct (split_lines_cons a) as (l & ls & ->).
Qed.

Lemma split_lines_single (e : string) :
  single_line e = true → split_lines e = [e].
Proof.
  induction e as [|c e IH]; cbn; [done|].
  destruct (Ascii.eqb c newline); cbn; [done|].
  by intros ->%IH.
Qed.

Lemma single_line_append (a b : string) :
  single_line (a +:+ b) = single_line a && single_line b.
Proof.
  induction a as [|c a IH]; [done|]. rewrite append_cons. cbn.
  rewrite IH. by destruct (Ascii.eqb c newline).
Qed.

Lemma terminated_cases (s : string) :
  terminated s = true → s = EmptyString ∨ ∃ d, s = d +:+ Spec.nl.
Proof.
  induction s as [|c s IH]; [by left|]. intros Ht. right.
  destruct s as [|c' s].
  - cbn in Ht. apply Ascii.eqb_eq in Ht as ->. by exists EmptyString.
  - change (terminated (String c' s) = true) in Ht.
    destruct (IH Ht) as [[=]|[d ->]]. by exists (String c d).
Qed.

(** Writing one more line after complete lines adds that line and leaves
    the earlier ones as they were. *)
Lemma lines_append (doc e : string) :
  terminated doc = true → single_line e = true → e ≠ EmptyString →
  lines (doc +:+ e) = lines doc ++ [e].
Proof.
  intros [->|[d ->]]%terminated_cases He Hne; unfold lines, drop_empty_tail.
  - rewrite append_nil, split_lines_single by done. cbn.
    destruct e; [by destruct Hne|done].
  - unfold Spec.nl. rewrite append_assoc, append_cons, append_nil.
    rewrite !split_lines_break, (split_lines_single e) by done. cbn.
    rewrite !last_snoc.
    destruct e; [by destruct Hne|]. by rewrite removelast_last.
Qed.

Lemma entries_append (doc e : string) :
  terminated doc = true → single_line e = true → e ≠ EmptyString →
  entries (doc +:+ e) = entries doc ++ omap entry_of_line [e].
Proof.
  intros Hd He Hne. unfold entries.
  by rewrite lines_append, omap_app.
Qed.

End DocFacts.

Lemma base_run_entry_single cwd rd :
  Doc.single_line (str (absolute cwd rd)) = true →
  Doc.single_line (base_run_entry cwd rd) = true
  ∧ base_run_entry cwd rd ≠ EmptyString.
Proof.
  intros Hp. unfold base_run_entry. split; [|done].
  by rewrite single_line_append, Hp.
Qed.

(** C3, as stated, fails: appended to a config whose last line is open, the
    text continues that line, so the value of the key on it changes and no
    [base_run_dir] entry appears. *)
Lemma add_base_run_dir_counterexample :
  let after :=
    default EmptyString
      (add_base_run_dir home run_dir {[ "finetune.yml" := open_config ]}
         !! "finetune.yml") in
  Doc.entries open_config = [("epochs", "10")]
  ∧ Doc.entries after
    = [("epochs",
        "10base_run_dir: /home/user/runs/cudalstm_maurer_531_basins_1201_213010")]
  ∧ Doc.entries after
    ≠ Doc.entries open_config ++ [("base_run_dir", str (absolute home run_dir))].
Proof. by vm_compute. Qed.

(** C3, amended. The augmentation leaves every other file alone and the
    bytes of the config in place, and writes after them exactly
    [base_run_dir: ] followed by the absolute path of the run directory.
    When the config is empty or ends in a line break, and the path holds no
    line break, the lines and the entries of the config are the earlier ones
    followed by the new one. *)
Theorem add_base_run_dir_append_only cwd rd (fs : files) doc :
  fs !! "finetune.yml" = Some doc →
  let p := str (absolute cwd rd) in
  let fs' := add_base_run_dir cwd rd fs in
  let after := doc +:+ "base_run_dir: " +:+ p in
  fs' !! "finetune.yml" = Some after
  ∧ delete "finetune.yml" fs' = delete "finetune.yml" fs
  ∧ (Doc.terminated doc = true → Doc.single_line p = true →
       Doc.lines after = Doc.lines doc ++ ["base_run_dir: " +:+ p]
       ∧ Doc.entries after = Doc.entries doc ++ [("base_run_dir", p)]).
Proof.
  intros Hdoc p fs' after. subst fs'. unfold add_base_run_dir, append_file.
  rewrite Hdoc. cbn [default]. split_and!.
  - apply lookup_insert_eq.
  - apply delete_insert_eq.
  - intros Hd Hp. destruct (base_run_entry_single cwd rd Hp) as [He Hne].
    split.
    + by apply lines_append.
    + subst after. by rewrite entries_append.
Qed.

Lemma add_base_run_dir_append_only_witness :
  let fs' := add_base_run_dir home run_dir {[ "finetune.yml" := config ]} in
  let p := str (absolute home run_dir) in
  fs' !! "finetune.yml" = Some (config +:+ "base_run_dir: " +:+ p)
  ∧ Doc.entries (config +:+ "base_run_dir: " +:+ p)
    = [("epochs", "10"); ("base_run_dir", p)].
Proof.
  destruct (add_base_run_dir_append_only home run_dir
              {[ "finetune.yml" := config ]} config) as (H1 & _ & H3).
  - reflexivity.
  - split; [exact H1|]. apply H3; reflexivity.
Defined.

(** C4, as stated, fails: the second call writes right after the first
    entry, so a config of complete lines gains one line, not two. *)
Lemma add_base_run_dir_twice_counterexample :
  let e := base_run_entry home run_dir in
  let after :=
    default EmptyString
      (add_base_run_dir home run_dir
         (add_base_run_dir home run_dir {[ "finetune.yml" := config ]})
         !! "finetune.yml") in
  Doc.lines after = ["epochs: 10"; e +:+ e]
  ∧ Doc.lines after ≠ Doc.lines config ++ [e; e]
  ∧ length (Doc.lines after) = length (Doc.lines config) + 1.
Proof. by vm_compute. Qed.

(** C4, amended. Two calls write the entry text twice, back to back and
    with nothing removed: the config becomes the earlier content followed
    by the text and the text again.  With a config of complete lines and a
    path without line break this adds a single line, the text followed by
    itself, and not two lines. *)
Theorem add_base_run_dir_twice cwd rd (fs : files) doc :
  fs !! "finetune.yml" = Some doc →
  let p := str (absolute cwd rd) in
  let e := base_run_entry cwd rd in
  let fs2 := add_base_run_dir cwd rd (add_base_run_dir cwd rd fs) in
  fs2 !! "finetune.yml" = Some (doc +:+ e +:+ e)
  ∧ delete "finetune.yml" fs2 = delete "finetune.yml" fs
  ∧ (Doc.terminated doc = true → Doc.single_line p = true →
       Doc.lines (doc +:+ e +:+ e) = Doc.lines doc ++ [e +:+ e]
       ∧ length (Doc.lines (doc +:+ e +:+ e)) = length (Doc.lines doc) + 1).
Proof.
  intros Hdoc p e fs2. subst fs2. unfold add_base_run_dir, append_file.
  rewrite !lookup_insert_eq, Hdoc. cbn [default from_option id]. fold e.
  split_and!.
  - by rewrite append_assoc.
  - by rewrite insert_insert_eq, delete_insert_eq.
  - intros Hd Hp. destruct (base_run_entry_single cwd rd Hp) as [He Hne].
    fold e in He, Hne.
    assert (Doc.single_line (e +:+ e) = true) as Hee
      by (by rewrite single_line_append, He).
    assert (e +:+ e ≠ EmptyString) as Hnee by (by subst e).
    rewrite lines_append by done. by rewrite length_app.
Qed.

Lemma add_base_run_dir_twice_witness :
  let e := base_run_entry home run_dir in
  let fs2 :=
    add_base_run_dir home run_dir
      (add_base_run_dir home run_dir {[ "finetune.yml" := config ]}) in
  fs2 !! "finetune.yml" = Some (config +:+ e +:+ e)
  ∧ Doc.lines (config +:+ e +:+ e) = ["epochs: 10"; e +:+ e].
Proof.
  destruct (add_base_run_dir_twice home run_dir
              {[ "finetune.yml" := config ]} config) as (H1 & _ & H3).
  - reflexivity.
  - split; [exact H1|]. apply H3; reflexivity.
Defined.

(** C5. After the emission the basin file holds exactly the identifier, with
    nothing before or after it, whatever the file held before; the other
    files are untouched, and the same holds at the end of the whole cell.
    Writing 04122200 leaves a file whose content is 04122200. *)
Theorem basin_file_holds_identifier basin cwd rd (fs : files) :
  write_basin_file basin fs !! "finetune_basin.txt" = Some basin
  ∧ delete "finetune_basin.txt" (write_basin_file basin fs)
    = delete "finetune_basin.txt" fs
  ∧ cell11 cwd rd basin fs !! "finetune_basin.txt" = Some basin
  ∧ write_basin_file "04122200" fs !! "finetune_basin.txt" = Some "04122200".
Proof.
  unfold cell11, write_basin_file, write_file.
  rewrite !lookup_insert_eq, delete_insert_eq. done.
Qed.

(** ** Further facts on the cells *)

Import Paths Flow.

Section QualifyingFacts.
Variable metric : string.

Lemma median_metric_ok (vr : results) :
  Forall has_1D (values vr) →
  median_metric metric vr = Ok (median (having_metric metric vr)).
Proof.
  intros HF. unfold median_metric. by rewrite metric_values_ok.
Qed.

Lemma qualifying_all (vr : results) :
  Forall has_1D (values vr) →
  qualifying metric vr
  = Ok (below metric (median (having_metric metric vr)) vr).
Proof.
  intros HF. unfold qualifying. rewrite median_metric_ok by done. cbn.
  by rewrite below_median_ok.
Qed.

Lemma qualifying_err (vr : results) :
  Exists (λ v, v !! "1D" = None) (values vr) →
  qualifying metric vr = Raise (KeyError "1D").
Proof.
  intros HE. unfold qualifying, median_metric. by rewrite metric_values_err.
Qed.

Lemma below_sublist m (vr : results) : below metric m vr `sublist_of` keys vr.
Proof.
  induction vr as [|[k v] vr IH]; [constructor|].
  rewrite below_cons. unfold keys in *. cbn.
  destruct (qualifies metric m (k, v)); by constructor.
Qed.

Lemma below_empty m (vr : results) :
  (∀ b v x, (b, v) ∈ vr → metric_of metric v = Some x → ltb x m = false) →
  below metric m vr = [].
Proof.
  intros Hno. destruct (below metric m vr) as [|b bs] eqn:Hb; [done|].
  assert (b ∈ below metric m vr) as Hin by (rewrite Hb; left).
  apply below_elem in Hin as (v & x & Hin & Hx & Hlt).
  by rewrite (Hno _ _ _ Hin Hx) in Hlt.
Qed.

End QualifyingFacts.

(** X1. The list that the loop of cell 7 builds names basins in the order of
    the mapping: it is a sub-list of the mapping's keys, and it names no basin
    twice. *)
Theorem qualifying_keeps_dict_order metric (vr : results) basins :
  odict_wf vr →
  qualifying metric vr = Ok basins →
  basins `sublist_of` keys vr ∧ NoDup basins.
Proof.
  intros Hwf Hq. apply qualifying_ok in Hq as [_ ->].
  pose proof (below_sublist metric (median (having_metric metric vr)) vr).
  split; [done|]. by eapply sublist_NoDup.
Qed.

Lemma qualifying_keeps_dict_order_witness :
  ["A"; "B"] `sublist_of` keys scenario ∧ NoDup ["A"; "B"].
Proof.
  apply (qualifying_keeps_dict_order "NSE" scenario ["A"; "B"]).
  - unfold odict_wf. refine (bool_decide_unpack _ _). vm_compute. exact I.
  - vm_compute. reflexivity.
Defined.

(** X2. For a mapping none of whose basin identifiers ends in a NUL
    character, the basins that the selector can return are exactly the
    qualifying ones, and each of them is returned for exactly one of the
    indices that [np.random.choice] can draw. *)
Theorem each_qualifying_basin_has_one_index metric (vr : results) basins b :
  odict_wf vr →
  Forall plain (keys vr) →
  qualifying metric vr = Ok basins →
  ((∃ draw, select_basin metric draw vr = Ok b) ↔ b ∈ basins)
  ∧ (b ∈ basins →
     ∃ i, i < length basins
          ∧ select_basin metric i vr = Ok b
          ∧ ∀ j, j < length basins →
                 select_basin metric j vr = Ok b → j = i).
Proof.
  intros Hwf Hp Hq.
  assert (NoDup basins ∧ Forall plain basins) as [Hnd Hpb].
  { pose proof Hq as [_ ->]%qualifying_ok. split; [|by apply below_plain].
    exact (sublist_NoDup _ _ Hwf (below_sublist _ _ _)). }
  assert (∀ i y, basins !! i = Some y →
            select_basin metric i vr = Ok y) as Hsel.
  { intros i y Hi. unfold select_basin. rewrite Hq. cbn.
    pose proof (lookup_lt_Some _ _ _ Hi) as Hlt.
    destruct basins as [|x basins']; [done|]. unfold random_choice.
    rewrite Nat.mod_small by done.
    rewrite (nth_lookup_Some _ _ x _ Hi).
    f_equal. apply (proj1 (Forall_forall _ _) Hpb).
    by eapply list_elem_of_lookup_2. }
  split; [split|].
  - intros [draw Hd]. unfold select_basin in Hd. rewrite Hq in Hd.
    by eapply random_choice_plain.
  - intros [i Hi]%list_elem_of_lookup. exists i. by apply Hsel.
  - intros [i Hi]%list_elem_of_lookup. exists i.
    split; [by eapply lookup_lt_Some|]. split; [by apply Hsel|].
    intros j Hj Hjb.
    destruct (lookup_lt_is_Some_2 _ _ Hj) as [y Hy].
    rewrite (Hsel j y Hy) in Hjb. injection Hjb as ->.
    by eapply NoDup_lookup.
Qed.

Lemma each_qualifying_basin_has_one_index_witness :
  ((∃ draw, select_basin "NSE" draw scenario = Ok "B") ↔ "B" ∈ ["A"; "B"])
  ∧ ("B" ∈ ["A"; "B"] →
     ∃ i, i < 2
          ∧ select_basin "NSE" i scenario = Ok "B"
          ∧ ∀ j, j < 2 → select_basin "NSE" j scenario = Ok "B" → j = i).
Proof.
  apply (each_qualifying_basin_has_one_index "NSE" scenario ["A"; "B"] "B").
  - unfold odict_wf. refine (bool_decide_unpack _ _). vm_compute. exact I.
  - repeat constructor.
  - vm_compute. reflexivity.
Defined.

(** X3. For a mapping none of whose basin identifiers ends in a NUL
    character, cell 7 fails in two ways only: with the error of
    [np.random.choice] when the list of qualifying basins is empty, and with
    [KeyError] on ["1D"] when a record lacks that key.  It raises no lookup
    error for the metric or for the chosen basin. *)
Theorem cell7_failures metric draw (vr : results) e :
  odict_wf vr →
  Forall plain (keys vr) →
  select_and_report metric draw vr = Raise e →
  e = empty_choice ∧ qualifying metric vr = Ok []
  ∨ e = KeyError "1D" ∧ Exists (λ v, v !! "1D" = None) (values vr).
Proof.
  intros Hwf Hp. unfold select_and_report, items.
  destruct (has_1D_cases (values vr)) as [HF|HE].
  - rewrite median_metric_ok by done. cbn.
    rewrite below_median_ok by done. cbn.
    rewrite qualifying_all by done.
    destruct (below metric (median (having_metric metric vr)) vr)
      as [|b0 bs] eqn:Hb.
    { cbn. intros [= <-]. by left. }
    rewrite <- Hb.
    destruct (random_choice_ok draw
                (below metric (median (having_metric metric vr)) vr))
      as [b Hc]; [by rewrite Hb|].
    rewrite Hc. cbn.
    apply random_choice_plain in Hc; [|by apply below_plain].
    apply below_elem in Hc as (v & x & Hin & Hx & _).
    by rewrite (basin_metric_of _ _ _ _ _ (assoc_wf _ _ _ Hwf Hin) Hx).
  - unfold median_metric. rewrite metric_values_err by done. cbn.
    intros [= <-]. by right.
Qed.

Lemma cell7_failures_witness :
  empty_choice = empty_choice ∧ qualifying "NSE" lone = Ok []
  ∨ empty_choice = KeyError "1D"
    ∧ Exists (λ v : record, v !! "1D" = None) (values lone).
Proof.
  apply (cell7_failures "NSE" 5 lone empty_choice).
  - unfold odict_wf. refine (bool_decide_unpack _ _). vm_compute. exact I.
  - repeat constructor.
  - vm_compute. reflexivity.
Defined.

(** X4. A [nan] stored for one basin makes the median [nan]; then no basin
    compares below it and the selector fails with the error of
    [np.random.choice], whatever the other values are. *)
Theorem nan_value_blocks_selection metric draw (vr : results) :
  Forall has_1D (values vr) →
  NaN ∈ having_metric metric vr →
  median_metric metric vr = Ok NaN
  ∧ qualifying metric vr = Ok []
  ∧ select_basin metric draw vr = Raise empty_choice.
Proof.
  intros HF Hnan.
  assert (below metric (median (having_metric metric vr)) vr = []) as Hb.
  { rewrite median_nan by done. apply below_empty.
    intros. apply ltb_nan_r. }
  split_and!.
  - by rewrite median_metric_ok, median_nan.
  - by rewrite qualifying_all, Hb.
  - by rewrite select_basin_ok, Hb.
Qed.

Lemma nan_value_blocks_selection_witness :
  let vr : results :=
    [("A", daily "NSE" (dec 5 10)); ("B", daily "NSE" NaN);
     ("C", daily "NSE" (dec 7 10))] in
  median_metric "NSE" vr = Ok NaN
  ∧ qualifying "NSE" vr = Ok []
  ∧ select_basin "NSE" 4 vr = Raise empty_choice.
Proof.
  apply (nan_value_blocks_selection "NSE" 4).
  - repeat constructor; by eexists.
  - apply list_elem_of_In. vm_compute. right. left. reflexivity.
Defined.

Section IgnoredFacts.
Variable metric : string.

Lemma having_metric_skip (vr1 vr2 : results) k (v : record) :
  metric_of metric v = None →
  having_metric metric (vr1 ++ (k, v) :: vr2)
  = having_metric metric (vr1 ++ vr2).
Proof.
  intros Hv. unfold having_metric, values.
  rewrite !fmap_app, !omap_app. cbn. by rewrite Hv.
Qed.

Lemma below_skip m (vr1 vr2 : results) k (v : record) :
  metric_of metric v = None →
  below metric m (vr1 ++ (k, v) :: vr2) = below metric m (vr1 ++ vr2).
Proof.
  intros Hv. unfold below. rewrite !List.filter_app. cbn.
  unfold qualifies at 2. cbn. by rewrite Hv.
Qed.

End IgnoredFacts.

(** X8. A basin whose ["1D"] record has no entry for the metric plays no part
    in cell 7: with or without it, the median, the list of qualifying basins
    and the basin returned for each draw are the same. *)
Theorem basin_without_metric_is_ignored metric draw (vr1 vr2 : results) k v d :
  v !! "1D" = Some d →
  d !! metric = None →
  median_metric metric (vr1 ++ (k, v) :: vr2) = median_metric metric (vr1 ++ vr2)
  ∧ qualifying metric (vr1 ++ (k, v) :: vr2) = qualifying metric (vr1 ++ vr2)
  ∧ select_basin metric draw (vr1 ++ (k, v) :: vr2)
    = select_basin metric draw (vr1 ++ vr2).
Proof.
  intros Hv Hd.
  assert (metric_of metric v = None) as Hm
    by (unfold metric_of; rewrite Hv; done).
  destruct (has_1D_cases (values (vr1 ++ vr2))) as [HF|HE].
  - assert (Forall has_1D (values (vr1 ++ (k, v) :: vr2))) as HF'.
    { unfold values in *. rewrite fmap_app in *.
      apply Forall_app in HF as [H1 H2]. apply Forall_app. split; [done|].
      cbn. constructor; [by exists d|done]. }
    rewrite !median_metric_ok, !qualifying_all, !select_basin_ok by done.
    by rewrite having_metric_skip, below_skip.
  - assert (Exists (λ v, v !! "1D" = None) (values (vr1 ++ (k, v) :: vr2)))
      as HE'.
    { unfold values in *. rewrite fmap_app in *.
      apply Exists_app in HE as [H1|H2]; apply Exists_app;
        [by left|right; by right]. }
    rewrite !qualifying_err, !select_basin_err by done.
    unfold median_metric. by rewrite !metric_values_err.
Qed.

Lemma basin_without_metric_is_ignored_witness :
  let gap : record := {[ "1D" := ∅ ]} in
  median_metric "NSE" ([("A", daily "NSE" (dec 5 10))] ++ ("X", gap) :: lone)
  = median_metric "NSE" ([("A", daily "NSE" (dec 5 10))] ++ lone)
  ∧ qualifying "NSE" ([("A", daily "NSE" (dec 5 10))] ++ ("X", gap) :: lone)
    = qualifying "NSE" ([("A", daily "NSE" (dec 5 10))] ++ lone)
  ∧ select_basin "NSE" 0 ([("A", daily "NSE" (dec 5 10))] ++ ("X", gap) :: lone)
    = select_basin "NSE" 0 ([("A", daily "NSE" (dec 5 10))] ++ lone).
Proof.
  apply (basin_without_metric_is_ignored "NSE" 0 _ lone "X" _ ∅); reflexivity.
Defined.

Section Cell11Facts.

Lemma cell11_config cwd rd basin (fs : files) :
  cell11 cwd rd basin fs !! "finetune.yml"
  = Some (default EmptyString (fs !! "finetune.yml")
          +:+ base_run_entry cwd rd).
Proof.
  unfold cell11, write_basin_file, write_file, add_base_run_dir, append_file.
  rewrite lookup_insert_ne by done. apply lookup_insert_eq.
Qed.

Lemma cell11_basin_file cwd rd basin (fs : files) :
  cell11 cwd rd basin fs !! "finetune_basin.txt" = Some basin.
Proof.
  unfold cell11, write_basin_file, write_file. apply lookup_insert_eq.
Qed.

Lemma copies_single n e :
  Doc.single_line e = true → Doc.single_line (copies n e) = true.
Proof.
  intros He. induction n as [|n IH]; [done|].
  cbn [copies]. by rewrite single_line_append, He, IH.
Qed.

Lemma append_nonempty (a b : string) : a ≠ EmptyString → a +:+ b ≠ EmptyString.
Proof. destruct a; [done|]. by rewrite append_cons. Qed.

Lemma append_empty (a : string) : a +:+ EmptyString = a.
Proof. induction a as [|c a IH]; [done|]. by rewrite append_cons, IH. Qed.

Lemma copies_snoc n e : copies n e +:+ e = e +:+ copies n e.
Proof.
  induction n as [|n IH]; cbn [copies].
  - by rewrite append_nil, append_empty.
  - by rewrite append_assoc, IH.
Qed.

End Cell11Facts.

(** X9. When [finetune.yml] does not exist, opening it for appending creates
    it: after the augmentation it holds the [base_run_dir] text and nothing
    else, which reads as that single entry when the path has no line
    break. *)
Theorem add_base_run_dir_creates_config cwd rd (fs : files) :
  fs !! "finetune.yml" = None →
  add_base_run_dir cwd rd fs !! "finetune.yml"
  = Some ("base_run_dir: " +:+ str (absolute cwd rd))
  ∧ delete "finetune.yml" (add_base_run_dir cwd rd fs) = fs
  ∧ (Doc.single_line (str (absolute cwd rd)) = true →
     Doc.entries ("base_run_dir: " +:+ str (absolute cwd rd))
     = [("base_run_dir", str (absolute cwd rd))]).
Proof.
  intros Hnone. unfold add_base_run_dir, append_file. rewrite Hnone.
  cbn [default from_option]. rewrite append_nil. split_and!.
  - apply lookup_insert_eq.
  - rewrite delete_insert_eq. by apply delete_id.
  - intros Hp. destruct (base_run_entry_single cwd rd Hp) as [He Hne].
    rewrite <- (append_nil ("base_run_dir: " +:+ _)).
    by rewrite entries_append.
Qed.

Lemma add_base_run_dir_creates_config_witness :
  add_base_run_dir home run_dir ∅ !! "finetune.yml"
  = Some ("base_run_dir: " +:+ str (absolute home run_dir))
  ∧ delete "finetune.yml" (add_base_run_dir home run_dir ∅) = ∅
  ∧ (Doc.single_line (str (absolute home run_dir)) = true →
     Doc.entries ("base_run_dir: " +:+ str (absolute home run_dir))
     = [("base_run_dir", str (absolute home run_dir))]).
Proof.
  apply (add_base_run_dir_creates_config home run_dir ∅). reflexivity.
Defined.

(** X10. However often cell 11 is run again, the config keeps its earlier
    content and gains the [base_run_dir] text once per run, all on one
    line, and the basin file holds the identifier once. *)
Theorem rerun_cell11_adds_one_line n cwd rd basin (fs : files) doc :
  fs !! "finetune.yml" = Some doc →
  0 < n →
  rerun_cell11 n cwd rd basin fs !! "finetune.yml"
  = Some (doc +:+ copies n (base_run_entry cwd rd))
  ∧ rerun_cell11 n cwd rd basin fs !! "finetune_basin.txt" = Some basin
  ∧ (Doc.terminated doc = true →
     Doc.single_line (str (absolute cwd rd)) = true →
     Doc.lines (doc +:+ copies n (base_run_entry cwd rd))
     = Doc.lines doc ++ [copies n (base_run_entry cwd rd)]).
Proof.
  intros Hdoc Hn. unfold rerun_cell11. split_and!.
  - clear Hn. induction n as [|n IH].
    + cbn. by rewrite append_empty.
    + rewrite Nat.iter_succ, cell11_config, IH. cbn [default from_option id].
      cbn [copies]. by rewrite append_assoc, copies_snoc.
  - destruct n as [|n]; [lia|]. rewrite Nat.iter_succ.
    apply cell11_basin_file.
  - intros Hd Hp. destruct (base_run_entry_single cwd rd Hp) as [He Hne].
    apply lines_append; [done|by apply copies_single|].
    destruct n as [|n]; [lia|]. by apply append_nonempty.
Qed.

Lemma rerun_cell11_adds_one_line_witness :
  let e := base_run_entry home run_dir in
  rerun_cell11 3 home run_dir "04122200" {[ "finetune.yml" := config ]}
    !! "finetune.yml"
  = Some (config +:+ copies 3 e)
  ∧ rerun_cell11 3 home run_dir "04122200" {[ "finetune.yml" := config ]}
      !! "finetune_basin.txt"
    = Some "04122200"
  ∧ (Doc.terminated config = true →
     Doc.single_line (str (absolute home run_dir)) = true →
     Doc.lines (config +:+ copies 3 e) = Doc.lines config ++ [copies 3 e]).
Proof.
  apply (rerun_cell11_adds_one_line 3 home run_dir "04122200"
           {[ "finetune.yml" := config ]} config).
  - reflexivity.
  - lia.
Defined.

(** X11. The two writes of cell 11 do not interfere: done in the other order
    they leave the same files, the config they leave is the one the
    augmentation alone leaves, and no file other than [finetune.yml] and
    [finetune_basin.txt] changes. *)
Theorem cell11_writes_are_independent cwd rd basin (fs : files) :
  cell11 cwd rd basin fs
  = add_base_run_dir cwd rd (write_basin_file basin fs)
  ∧ cell11 cwd rd basin fs !! "finetune.yml"
    = add_base_run_dir cwd rd fs !! "finetune.yml"
  ∧ delete "finetune.yml" (delete "finetune_basin.txt" (cell11 cwd rd basin fs))
    = delete "finetune.yml" (delete "finetune_basin.txt" fs).
Proof.
  unfold cell11, write_basin_file, write_file, add_base_run_dir, append_file.
  split_and!.
  - rewrite (lookup_insert_ne fs "finetune_basin.txt") by done.
    by apply insert_insert_ne.
  - by rewrite lookup_insert_ne.
  - by rewrite delete_insert_eq, delete_delete, delete_insert_eq, delete_delete.
Qed.

Lemma select_and_report_ok metric draw (vr : results) m b x :
  select_and_report metric draw vr = Ok (m, b, x) →
  m = median (having_metric metric vr)
  ∧ (∃ y, y ∈ below metric m vr ∧ b = strip_nul y)
  ∧ basin_metric metric vr b = Ok x.
Proof.
  unfold select_and_report, items.
  destruct (has_1D_cases (values vr)) as [HF|HE].
  - rewrite median_metric_ok by done. cbn.
    rewrite below_median_ok by done. cbn.
    destruct (random_choice draw _) as [b'|] eqn:Hc; cbn; [|done].
    destruct (basin_metric metric vr b') as [x'|] eqn:Hx; cbn; [|done].
    intros [= <- <- <-]. split_and!; [done| |done].
    apply random_choice_elem in Hc as (y & Hy & ->). by exists y.
  - unfold median_metric. by rewrite metric_values_err.
Qed.

(** X12. For a mapping none of whose basin identifiers ends in a NUL
    character: when cells 7 and 11 run in sequence, the identifier that ends
    up in [finetune_basin.txt] is a basin of the validation results whose
    NSE is strictly below the median NSE. *)
Theorem written_basin_is_below_median draw (vr : results) cwd rd
    (fs fs' : files) basin :
  odict_wf vr →
  Forall plain (keys vr) →
  select_then_write draw vr cwd rd fs = Ok (basin, fs') →
  fs' !! "finetune_basin.txt" = Some basin
  ∧ basin ∈ keys vr
  ∧ ∃ x, basin_metric "NSE" vr basin = Ok x
         ∧ ltb x (median (having_metric "NSE" vr)) = true
         ∧ leb (median (having_metric "NSE" vr)) x = false.
Proof.
  intros Hwf Hp. unfold select_then_write, cell7.
  destruct (select_and_report "NSE" draw vr) as [[[m b] x]|] eqn:Hsel;
    cbn; [|done].
  intros [= <- <-].
  apply select_and_report_ok in Hsel as (-> & (y & Hy & ->) & _).
  rewrite (proj1 (Forall_forall _ _) (below_plain _ _ _ Hp) y Hy).
  split; [apply cell11_basin_file|].
  split; [by eapply below_keys|].
  apply below_elem in Hy as (v & x' & Hin & Hx' & Hlt).
  exists x'. split_and!; [|done|by apply ltb_leb].
  eapply basin_metric_of; [by apply assoc_wf|done].
Qed.

Lemma written_basin_is_below_median_witness :
  cell11 home run_dir "A" ∅ !! "finetune_basin.txt" = Some "A"
  ∧ "A" ∈ keys scenario
  ∧ ∃ x, basin_metric "NSE" scenario "A" = Ok x
         ∧ ltb x (median (having_metric "NSE" scenario)) = true
         ∧ leb (median (having_metric "NSE" scenario)) x = false.
Proof.
  apply (written_basin_is_below_median 0 scenario home run_dir ∅).
  - unfold odict_wf. refine (bool_decide_unpack _ _). vm_compute. exact I.
  - repeat constructor.
  - vm_compute. reflexivity.
Defined.

(** X13. Cell 21 yields a pair exactly when no key on the way to the metric
    is missing in either mapping, and handing it the two mappings in the other
    order yields the same two values in the other order. *)
Theorem compare_succeeds_iff metric (a b : results) basin :
  ((∃ x y, compare metric a b basin = Ok (x, y))
   ↔ absent_key metric a basin = None ∧ absent_key metric b basin = None)
  ∧ ∀ x y, compare metric a b basin = Ok (x, y)
           ↔ compare metric b a basin = Ok (y, x).
Proof.
  unfold compare. split; [split|].
  - intros (x & y & Hc).
    destruct (absent_key metric a basin) as [k|] eqn:Ha.
    { by rewrite (basin_metric_absent _ _ _ _ Ha) in Hc. }
    destruct (basin_metric_present _ _ _ Ha) as [x' Hx]. rewrite Hx in Hc.
    destruct (absent_key metric b basin) as [k|] eqn:Hb; [|done].
    by rewrite (basin_metric_absent _ _ _ _ Hb) in Hc.
  - intros [Ha Hb].
    destruct (basin_metric_present _ _ _ Ha) as [x ->].
    destruct (basin_metric_present _ _ _ Hb) as [y ->]. by exists x, y.
  - intros x y.
    destruct (basin_metric metric a basin), (basin_metric metric b basin);
      cbn; split; intros [=]; by subst.
Qed.

(** X14. Read back by lines, the basin file that cell 11 writes lists exactly
    the one identifier, provided the identifier is not empty and holds no
    line break. *)
Theorem basin_file_lists_one_basin cwd rd basin (fs : files) :
  Doc.single_line basin = true →
  basin ≠ EmptyString →
  ∃ content, cell11 cwd rd basin fs !! "finetune_basin.txt" = Some content
             ∧ Doc.lines content = [basin].
Proof.
  intros Hs Hne. exists basin. split; [apply cell11_basin_file|].
  rewrite <- (append_nil basin). by rewrite lines_append.
Qed.

Lemma basin_file_lists_one_basin_witness :
  ∃ content,
    cell11 home run_dir "04122200" ∅ !! "finetune_basin.txt" = Some content
    ∧ Doc.lines content = ["04122200"].
Proof.
  apply (basin_file_lists_one_basin home run_dir "04122200" ∅).
  - reflexivity.
  - discriminate.
Defined.

Section PathFacts.

Lemma split_slash_cons (s : string) : ∃ x xs, split_slash s = x :: xs.
Proof.
  destruct s as [|c s]; cbn; [by eexists _, _|].
  destruct (Ascii.eqb c slash); [by eexists _, _|].
  destruct (split_slash s); by eexists _, _.
Qed.

Lemma split_slash_break (a b : string) :
  split_slash (a +:+ String slash b) = split_slash a ++ split_slash b.
Proof.
  induction a as [|c a IH].
  - rewrite append_nil. cbn. by rewrite Ascii.eqb_refl.
  - rewrite append_cons. cbn.
    destruct (Ascii.eqb c slash); [by rewrite IH|].
    rewrite IH. by destruct (split_slash_cons a) as (x & xs & ->).
Qed.

Lemma rel_parts_join (a b : string) :
  rel_parts (a +:+ "/" +:+ b) = rel_parts a ++ rel_parts b.
Proof.
  unfold rel_parts. change ("/" +:+ b) with (String slash b).
  by rewrite split_slash_break, List.filter_app.
Qed.

Lemma join_app sep (l1 l2 : list string) :
  l1 ≠ [] → l2 ≠ [] →
  join sep (l1 ++ l2) = join sep l1 +:+ sep +:+ join sep l2.
Proof.
  intros H1 H2. induction l1 as [|x [|y l1] IH]; [done| |].
  - destruct l2; [done|]. done.
  - change (join sep ((x :: y :: l1) ++ l2))
      with (x +:+ sep +:+ join sep ((y :: l1) ++ l2)).
    change (join sep (x :: y :: l1)) with (x +:+ sep +:+ join sep (y :: l1)).
    rewrite IH by done. by rewrite !append_assoc.
Qed.

Lemma str_truediv (p : Path) (s : string) :
  parts p ≠ [] → rel_parts s ≠ [] →
  str (truediv p s) = str p +:+ "/" +:+ join "/" (rel_parts s).
Proof.
  intros Hp Hs. unfold str, truediv. cbn [anchored parts].
  rewrite join_app by done.
  destruct (anchored p).
  - by rewrite append_assoc.
  - destruct (parts p) as [|x l] eqn:Hx; [done|]. by destruct l.
Qed.

Lemma absolute_parts cwd (p : Path) : parts p ≠ [] → parts (absolute cwd p) ≠ [].
Proof.
  intros Hp. unfold absolute. destruct (anchored p); [done|]. cbn.
  intros [_ ?]%app_eq_nil. done.
Qed.

Lemma absolute_join cwd (p : Path) (s : string) :
  absolute cwd (truediv p s) = truediv (absolute cwd p) s.
Proof.
  destruct p as [[|] ps]; unfold absolute, truediv; cbn; [done|].
  by rewrite app_assoc.
Qed.

End PathFacts.

(** X15. Joining two names one after the other gives the same path as
    joining them at once with a slash between them, the two ways in which
    cells 7 and 21 build the paths of the result files.  The names are
    relative and the first is not empty. *)
Theorem truediv_twice (p : Path) (a b : string) :
  is_relative a = true → a ≠ EmptyString → is_relative b = true →
  truediv (truediv p a) b = truediv p (a +:+ "/" +:+ b).
Proof.
  intros _ _ _. unfold truediv. cbn [anchored parts].
  by rewrite rel_parts_join, app_assoc.
Qed.

Lemma truediv_twice_witness :
  truediv (truediv run_dir "test") "model_epoch003"
  = truediv run_dir ("test" +:+ "/" +:+ "model_epoch003").
Proof.
  apply (truediv_twice run_dir "test" "model_epoch003");
    [reflexivity|discriminate|reflexivity].
Defined.

(** X16. Making a path absolute and joining a relative name to it can be
    done in either order: the file that a relative run directory and a name
    designate is the one that the absolute run directory and the name
    designate. *)
Theorem absolute_truediv cwd (p : Path) (s : string) :
  is_relative s = true →
  absolute cwd (truediv p s) = truediv (absolute cwd p) s.
Proof. intros _. apply absolute_join. Qed.

Lemma absolute_truediv_witness :
  absolute home (truediv run_dir "test/model_epoch003/test_results.p")
  = truediv (absolute home run_dir) "test/model_epoch003/test_results.p".
Proof.
  apply (absolute_truediv home run_dir). reflexivity.
Defined.

(** X17. The result files that cells 7 and 21 open lie under the directory
    that cell 11 writes as [base_run_dir]: their absolute path is the text of
    that entry's value followed by the fixed relative name.  The run
    directory has at least one component. *)
Theorem result_files_under_base_run_dir cwd (rd : Path) :
  parts rd ≠ [] →
  str (absolute cwd (validation_results_file rd))
  = str (absolute cwd rd)
    +:+ "/validation/model_epoch003/validation_results.p"
  ∧ str (absolute cwd (test_results_file rd))
    = str (absolute cwd rd) +:+ "/test/model_epoch003/test_results.p".
Proof.
  intros Hrd. pose proof (absolute_parts cwd rd Hrd) as Habs.
  unfold validation_results_file, test_results_file.
  assert (∀ q a, parts q ≠ [] → rel_parts a ≠ [] →
            parts (truediv q a) ≠ []) as Hne.
  { intros q a Hq _. unfold truediv. cbn. by intros [? _]%app_eq_nil. }
  split.
  - rewrite !absolute_join.
    rewrite !str_truediv; [|done|done|by apply Hne|done|by apply Hne; [apply Hne|]|done].
    by rewrite !append_assoc.
  - rewrite absolute_join. by rewrite str_truediv.
Qed.

Lemma result_files_under_base_run_dir_witness :
  str (absolute home (validation_results_file run_dir))
  = str (absolute home run_dir)
    +:+ "/validation/model_epoch003/validation_results.p"
  ∧ str (absolute home (test_results_file run_dir))
    = str (absolute home run_dir) +:+ "/test/model_epoch003/test_results.p".
Proof.
  apply (result_files_under_base_run_dir home run_dir). discriminate.
Defined.
